(** * The relay-interface RPC client (wlnr/relayinterface/client_rpc.go)

    A shallow embedding of the Go client that drives the relay server over
    [net/rpc] and serves the relay's notifications.  The network, the
    logger and the callback consumer are the environment: every dial, call
    and listen takes its outcome from a script held in the [World], and
    every interaction with the environment is recorded, in order, in the
    world's [trace].  Quantifying over worlds quantifies over every sequence
    of outcomes the environment can produce. *)

From Stdlib Require Import String List Bool Arith Lia.
Import ListNotations.
Local Open Scope string_scope.
Local Open Scope list_scope.

(** ** Values exchanged with the environment *)

(** A [net.Conn], a [net.Listener]: identified by a number. *)
Definition Conn := nat.
Definition Listener := nat.

(** A [*rpc.Client], as built by [jsonrpc.NewClient(connection)]. *)
Inductive RpcClient : Type :=
| jsonrpc_NewClient (connection : Conn).

(** A Go [error] value.  [rpc.ErrShutdown] is a sentinel compared with [==];
    every other error is told apart from it. *)
Inductive error : Type :=
| ErrShutdown
| OtherError (msg : string).

Definition is_ErrShutdown (err : error) : bool :=
  match err with
  | ErrShutdown => true
  | OtherError _ => false
  end.

(** [GameData], the request of every operation on a game. *)
Record GameData : Type := mkGameData {
  Name : string;
  Password : string
}.

(** What [net.DialTimeout], the relay handle's [Call] with a boolean reply and
    [net.Listen] can answer. *)
Inductive DialOutcome : Type :=
| DialOk (connection : Conn)
| DialErr (err : error).

Inductive CallOutcome : Type :=
| CallReply (reply : bool)
| CallError (err : error).

Inductive ListenOutcome : Type :=
| ListenOk (rpcLn : Listener)
| ListenErr (err : error).

(** ** The trace of interactions *)

Inductive Event : Type :=
| EvDial (network address : string) (seconds : nat) (r : DialOutcome)
| EvCall (relay : RpcClient) (method : string) (args : GameData) (r : CallOutcome)
| EvListen (network address : string) (r : ListenOutcome)
| EvRegister
| EvGoAccept (rpcLn : Listener)
| EvClose (rpcLn : Listener)
| EvLog (format : string) (arg : option error)
| EvGameConnected (name : string)
| EvGameClosed (name : string)
| EvStatus.

Definition is_dial (e : Event) : bool :=
  match e with EvDial _ _ _ _ => true | _ => false end.

Definition is_call (e : Event) : bool :=
  match e with EvCall _ _ _ _ => true | _ => false end.

Definition is_log (e : Event) : bool :=
  match e with EvLog _ _ => true | _ => false end.

Definition is_callback (e : Event) : bool :=
  match e with
  | EvGameConnected _ | EvGameClosed _ | EvStatus => true
  | _ => false
  end.

(** Number of reconnects (dial attempts) and of call attempts in a trace. *)
Definition dial_attempts (t : list Event) : nat := length (filter is_dial t).
Definition call_attempts (t : list Event) : nat := length (filter is_call t).

(** The outcomes of the call attempts of a trace, in order. *)
Fixpoint call_outcomes (t : list Event) : list CallOutcome :=
  match t with
  | [] => []
  | EvCall _ _ _ r :: t' => r :: call_outcomes t'
  | _ :: t' => call_outcomes t'
  end.

(** The requests of the call attempts of a trace, in order. *)
Fixpoint call_requests (t : list Event) : list (string * GameData) :=
  match t with
  | [] => []
  | EvCall _ method args _ :: t' => (method, args) :: call_requests t'
  | _ :: t' => call_requests t'
  end.

(** ** Outcomes of computations and of loop bodies *)

(** A Go function returns a value or panics. *)
Inductive Res (A : Type) : Type :=
| Val (a : A)
| Panic.
Arguments Val {A} a.
Arguments Panic {A}.

(** How the body of a [for] loop ends. *)
Inductive Ctl (S R : Type) : Type :=
| Next (s : S)        (* the body fell through: i++ and test again *)
| Break (s : S)
| Return (r : R).
Arguments Next {S R} s.
Arguments Break {S R} s.
Arguments Return {S R} r.

Section Client.

(** [ServerStatus] is declared elsewhere in the package; the client only
    copies it.  [Consumer] is the state of the application object behind the
    [ClientCallback] interface. *)
Context {ServerStatus : Type} {Consumer : Type}.

(** ** The world *)

Record World : Type := mkWorld {
  dial_script : nat -> DialOutcome;     (* outcome of the n-th dial *)
  call_script : nat -> CallOutcome;     (* outcome of the n-th call *)
  listen_script : nat -> ListenOutcome; (* outcome of the n-th listen *)
  dials : nat;
  calls : nat;
  listens : nat;
  trace : list Event;
  consumer : Consumer
}.

Definition record (e : Event) (w : World) : World :=
  mkWorld (dial_script w) (call_script w) (listen_script w)
          (dials w) (calls w) (listens w) (trace w ++ [e]) (consumer w).

Definition next_dial (w : World) : World :=
  mkWorld (dial_script w) (call_script w) (listen_script w)
          (S (dials w)) (calls w) (listens w) (trace w) (consumer w).

Definition next_call (w : World) : World :=
  mkWorld (dial_script w) (call_script w) (listen_script w)
          (dials w) (S (calls w)) (listens w) (trace w) (consumer w).

Definition next_listen (w : World) : World :=
  mkWorld (dial_script w) (call_script w) (listen_script w)
          (dials w) (calls w) (S (listens w)) (trace w) (consumer w).

Definition set_consumer (s : Consumer) (w : World) : World :=
  mkWorld (dial_script w) (call_script w) (listen_script w)
          (dials w) (calls w) (listens w) (trace w) s.

(** The outcome the environment holds ready for the next dial, call, listen. *)
Definition dial_now (w : World) : DialOutcome := dial_script w (dials w).
Definition call_now (w : World) : CallOutcome := call_script w (calls w).
Definition listen_now (w : World) : ListenOutcome := listen_script w (listens w).

(** The events a run from [w] to [w'] added to the trace. *)
Definition emitted (w w' : World) : list Event :=
  skipn (length (trace w)) (trace w').

(** ** Computations: state passing, with Go's run-time panic *)

Definition M (A : Type) : Type := World -> Res A * World.

Definition ret {A} (a : A) : M A := fun w => (Val a, w).

Definition bind {A B} (m : M A) (k : A -> M B) : M B :=
  fun w =>
    match m w with
    | (Val a, w') => k a w'
    | (Panic, w') => (Panic, w')
    end.

Definition panic {A} : M A := fun w => (Panic, w).

Definition emit (e : Event) : M unit := fun w => (Val tt, record e w).

Notation "x <- m ;; k" := (bind m (fun x => k))
  (at level 100, m at next level, right associativity).
Notation "' p <- m ;; k" := (bind m (fun x => match x with p => k end))
  (at level 100, p pattern, m at next level, right associativity).
Notation "m ;;; k" := (bind m (fun _ => k))
  (at level 100, right associativity).

(** The value and the final world of a run. *)
Definition result {A} (m : M A) (w : World) : Res A := fst (m w).
Definition after {A} (m : M A) (w : World) : World := snd (m w).
Definition events {A} (m : M A) (w : World) : list Event := emitted w (after m w).

(** ** The library operations the client uses *)

(** [net.DialTimeout(network, address, seconds * time.Second)]. *)
Definition net_DialTimeout (network address : string) (seconds : nat) : M DialOutcome :=
  fun w =>
    let r := dial_now w in
    (Val r, record (EvDial network address seconds r) (next_dial w)).

(** [relay.Call(method, args, &reply)]: returns the error and the content of
    the reply cell afterwards.  The cell is written only by a call without
    error; a nil [*rpc.Client] panics. *)
Definition rpc_Call (relay : option RpcClient) (method : string) (args : GameData)
    (reply : bool) : M (bool * option error) :=
  match relay with
  | None => panic
  | Some h =>
    fun w =>
      let r := call_now w in
      (Val match r with
           | CallReply b => (b, None)
           | CallError err => (reply, Some err)
           end,
       record (EvCall h method args r) (next_call w))
  end.

(** [net.Listen(network, address)]. *)
Definition net_Listen (network address : string) : M ListenOutcome :=
  fun w =>
    let r := listen_now w in
    (Val r, record (EvListen network address r) (next_listen w)).

(** [listener.Close()]; a nil listener panics. *)
Definition listener_Close (ln : option Listener) : M unit :=
  match ln with
  | None => panic
  | Some l => emit (EvClose l)
  end.

Definition log_Printf (format : string) (arg : option error) : M unit :=
  emit (EvLog format arg).

(** ** Bounded [for] loops with [break] and [return] *)

Fixpoint for_iter {S R} (n i : nat) (body : nat -> S -> M (Ctl S R)) (s : S)
    : M (S + R) :=
  match n with
  | O => ret (inl s)
  | Datatypes.S n' =>
    c <- body i s ;;
    match c with
    | Next s' => for_iter n' (Datatypes.S i) body s'
    | Break s' => ret (inl s')
    | Return r => ret (inr r)
    end
  end.

(** [for i := lo; i < hi; i++ { body }]. *)
Definition for_lt {S R} (lo hi : nat) (body : nat -> S -> M (Ctl S R)) (s : S)
    : M (S + R) :=
  for_iter (hi - lo) lo body s.

(** ** The client *)

(** The [ClientCallback] interface: the three methods of the consumer.
    [cbStatus] returns a [*ServerStatus], which may be nil. *)
Record ClientCallback : Type := mkClientCallback {
  cbGameConnected : string -> Consumer -> Consumer;
  cbGameClosed : string -> Consumer -> Consumer;
  cbStatus : Consumer -> option ServerStatus * Consumer
}.

Record ClientRPC : Type := mkClientRPC {
  callback : ClientCallback;
  relay : option RpcClient;
  listener : option Listener
}.

Record ClientRPCMethods : Type := mkClientRPCMethods {
  client : ClientRPC
}.

Definition set_relay (c : ClientRPC) (h : RpcClient) : ClientRPC :=
  mkClientRPC (callback c) (Some h) (listener c).

Definition set_listener (c : ClientRPC) (l : Listener) : ClientRPC :=
  mkClientRPC (callback c) (relay c) (Some l).

(** Methods with a pointer receiver return the receiver as they leave it. *)

Definition connect (c : ClientRPC) : M (ClientRPC * bool) :=
  r <- net_DialTimeout "tcp" "localhost:7398" 10 ;;
  match r with
  | DialErr err =>
    log_Printf "Unable to connect to relay server at localhost: %v" (Some err) ;;;
    ret (c, false)
  | DialOk connection =>
    let c := set_relay c (jsonrpc_NewClient connection) in
    log_Printf "Connected to relay server" None ;;;
    ret (c, true)
  end.

Definition NewClientRPC (cb : ClientCallback) : M (option ClientRPC) :=
  let c := mkClientRPC cb None None in
  '(c, ok) <- connect c ;;
  if negb ok then ret None
  else
    r <- net_Listen "tcp" ":7399" ;;
    match r with
    | ListenErr err =>
      log_Printf "Error when listening for RPC calls: %v" (Some err) ;;;
      ret None
    | ListenOk rpcLn =>
      let c := set_listener c rpcLn in
      emit EvRegister ;;;
      emit (EvGoAccept rpcLn) ;;;
      ret (Some c)
    end.

Definition CloseConnection (c : ClientRPC) : M ClientRPC :=
  listener_Close (listener c) ;;;
  ret c.

Definition CreateGame (c : ClientRPC) (name hostPassword : string)
    : M (ClientRPC * bool) :=
  let success := false in
  let data := mkGameData name hostPassword in
  r <- for_lt 0 2 (fun _ '(c, success) =>
         '(success, err) <- rpc_Call (relay c) "ServerRPCMethods.NewGame" data success ;;
         match err with
         | None => ret (Break (c, success))
         | Some err =>
           if is_ErrShutdown err then
             '(c, ok) <- connect c ;;
             if negb ok then
               log_Printf "ClientRPC: Lost connection to relay and are unable to reconnect" None ;;;
               ret (Return (c, false))
             else
               log_Printf "ClientRPC: Lost connection to relay but was able to reconnect" None ;;;
               ret (Next (c, success))
           else
             log_Printf "ClientRPC  error: %v" (Some err) ;;;
             ret (Return (c, false))
         end) (c, success) ;;
  match r with
  | inl (c, success) => ret (c, success)
  | inr out => ret out
  end.

Definition RemoveGame (c : ClientRPC) (name : string) : M (ClientRPC * bool) :=
  let success := false in
  let data := mkGameData name "" in
  r <- for_lt 0 2 (fun _ '(c, success) =>
         '(success, err) <- rpc_Call (relay c) "ServerRPCMethods.RemoveGame" data success ;;
         match err with
         | None => ret (Break (c, success))
         | Some err =>
           if is_ErrShutdown err then
             '(c, ok) <- connect c ;;
             if negb ok then
               log_Printf "ClientRPC: Lost connection to relay and are unable to reconnect" None ;;;
               ret (Return (c, false))
             else
               log_Printf "ClientRPC: Lost connection to relay but was able to reconnect" None ;;;
               ret (Next (c, success))
           else
             log_Printf "ClientRPC  error: %v" (Some err) ;;;
             ret (Return (c, false))
         end) (c, success) ;;
  match r with
  | inl (c, success) => ret (c, success)
  | inr out => ret out
  end.

(** The handlers served to the relay.  Each returns the response cell as it
    leaves it and the error it answers with ([None] is nil). *)

Definition GameConnected (m : ClientRPCMethods) (inp : GameData) (response : bool)
    : M (bool * option error) :=
  (fun w => (Val tt, set_consumer
                       (cbGameConnected (callback (client m)) (Name inp) (consumer w))
                       (record (EvGameConnected (Name inp)) w))) ;;;
  ret (response, None).

Definition GameClosed (m : ClientRPCMethods) (inp : GameData) (response : bool)
    : M (bool * option error) :=
  (fun w => (Val tt, set_consumer
                       (cbGameClosed (callback (client m)) (Name inp) (consumer w))
                       (record (EvGameClosed (Name inp)) w))) ;;;
  ret (response, None).

Definition Status (m : ClientRPCMethods) (inp : string) (response : ServerStatus)
    : M (ServerStatus * option error) :=
  p <- (fun w => let '(p, s) := cbStatus (callback (client m)) (consumer w) in
                 (Val p, set_consumer s (record EvStatus w))) ;;
  match p with
  | None => panic
  | Some st => ret (st, None)
  end.

(** ** Observing a run *)

(** An invocation of one of the two outbound operations. *)
Inductive Invocation : Type :=
| InvCreateGame (name hostPassword : string)
| InvRemoveGame (name : string).

Definition invoke (c : ClientRPC) (op : Invocation) : M (ClientRPC * bool) :=
  match op with
  | InvCreateGame name hostPassword => CreateGame c name hostPassword
  | InvRemoveGame name => RemoveGame c name
  end.

(** The request an invocation is to send. *)
Definition request_of (op : Invocation) : string * GameData :=
  match op with
  | InvCreateGame name hostPassword =>
    ("ServerRPCMethods.NewGame", mkGameData name hostPassword)
  | InvRemoveGame name =>
    ("ServerRPCMethods.RemoveGame", mkGameData name "")
  end.

(** The boolean an outbound operation returns, when it returns. *)
Definition returned (m : M (ClientRPC * bool)) (w : World) : option bool :=
  match result m w with
  | Val (_, b) => Some b
  | Panic => None
  end.

(** What one call attempt reports: the relay's boolean, or failure. *)
Definition reported (o : CallOutcome) : bool :=
  match o with
  | CallReply b => b
  | CallError _ => false
  end.

Definition is_shutdown_failure (o : CallOutcome) : bool :=
  match o with
  | CallError ErrShutdown => true
  | _ => false
  end.

Definition shutdown_failures (t : list Event) : nat :=
  length (filter is_shutdown_failure (call_outcomes t)).

(** The outcomes of the dial attempts of a trace, in order. *)
Fixpoint dial_outcomes (t : list Event) : list DialOutcome :=
  match t with
  | [] => []
  | EvDial _ _ _ r :: t' => r :: dial_outcomes t'
  | _ :: t' => dial_outcomes t'
  end.

(** A caller that issues outbound operations one after another on the same
    client, collecting what each returns. *)
Fixpoint session (c : ClientRPC) (ops : list Invocation)
    : M (ClientRPC * list bool) :=
  match ops with
  | [] => ret (c, [])
  | op :: ops' =>
    '(c, b) <- invoke c op ;;
    '(c, bs) <- session c ops' ;;
    ret (c, b :: bs)
  end.

End Client.

(** ** Observing handles and the inbound side *)

Definition RpcClient_eqb (h h' : RpcClient) : bool :=
  match h, h' with
  | jsonrpc_NewClient n, jsonrpc_NewClient n' => Nat.eqb n n'
  end.

(** The relay handle in use at the end of a trace that started with [h]:
    the one on the last connection dialled with success, if any. *)
Fixpoint handle_after (h : option RpcClient) (t : list Event) : option RpcClient :=
  match t with
  | [] => h
  | EvDial _ _ _ (DialOk connection) :: t' =>
    handle_after (Some (jsonrpc_NewClient connection)) t'
  | _ :: t' => handle_after h t'
  end.

(** Whether every call of a trace was made on the handle in use when it was
    made, starting with [h]. *)
Fixpoint calls_on_current_handle (h : option RpcClient) (t : list Event) : bool :=
  match t with
  | [] => true
  | EvCall h' _ _ _ :: t' =>
    match h with
    | Some h0 => RpcClient_eqb h0 h'
    | None => false
    end && calls_on_current_handle h t'
  | EvDial _ _ _ (DialOk connection) :: t' =>
    calls_on_current_handle (Some (jsonrpc_NewClient connection)) t'
  | _ :: t' => calls_on_current_handle h t'
  end.

(** The events of the outbound side: calls, dials and log lines. *)
Definition is_outbound (e : Event) : bool :=
  is_call e || is_dial e || is_log e.

Definition is_listen (e : Event) : bool :=
  match e with EvListen _ _ _ => true | _ => false end.

Definition is_register (e : Event) : bool :=
  match e with EvRegister => true | _ => false end.

(** The listeners for which an accept loop was started, in order. *)
Fixpoint accept_loops (t : list Event) : list Listener :=
  match t with
  | [] => []
  | EvGoAccept rpcLn :: t' => rpcLn :: accept_loops t'
  | _ :: t' => accept_loops t'
  end.

(** ** Scenarios

    A consumer that keeps a journal of what it was told, with the length of
    the journal as its status; worlds whose scripts are given by lists. *)

Definition script {A : Type} (outcomes : list A) (otherwise : A) : nat -> A :=
  fun n => nth n outcomes otherwise.

Definition journal : @ClientCallback nat (list string) :=
  mkClientCallback
    (fun name s => String.append "connected " name :: s)
    (fun name s => String.append "closed " name :: s)
    (fun s => (Some (length s), s)).

(** A consumer whose Status returns nil. *)
Definition mute : @ClientCallback nat (list string) :=
  mkClientCallback (fun _ s => s) (fun _ s => s) (fun s => (None, s)).

Definition world (ds : list DialOutcome) (cs : list CallOutcome)
    (ls : list ListenOutcome) : @World (list string) :=
  mkWorld (script ds (DialErr (OtherError "connection refused")))
          (script cs (CallError (OtherError "unexpected EOF")))
          (script ls (ListenErr (OtherError "address already in use")))
          0 0 0 [] [].

(** A client as NewClientRPC leaves it: connection 0, listener 0. *)
Definition hosted : @ClientRPC nat (list string) :=
  mkClientRPC journal (Some (jsonrpc_NewClient 0)) (Some 0).

Definition room1 : Invocation := InvCreateGame "room1" "pw".

(** The relay answers at once. *)
Definition responsive (b : bool) : @World (list string) :=
  world [] [CallReply b] [].

(** The connection is lost, the reconnect succeeds, the retry is answered. *)
Definition lost_once (b : bool) : @World (list string) :=
  world [DialOk 1] [CallError ErrShutdown; CallReply b] [].

(** The connection is lost again under the retry; both reconnects succeed. *)
Definition lost_twice : @World (list string) :=
  world [DialOk 1; DialOk 2] [CallError ErrShutdown; CallError ErrShutdown] [].

(** The connection is lost and the relay cannot be reached again. *)
Definition unreachable : @World (list string) :=
  world [DialErr (OtherError "connection refused")] [CallError ErrShutdown] [].

(** The connection is lost again under the retry, for good this time. *)
Definition lost_for_good : @World (list string) :=
  world [DialOk 1; DialErr (OtherError "connection refused")]
        [CallError ErrShutdown; CallError ErrShutdown] [].

(** The connection is lost, and the relay rejects the retry. *)
Definition lost_then_rejected : @World (list string) :=
  world [DialOk 1]
        [CallError ErrShutdown; CallError (OtherError "no such method")] [].

(** The relay rejects the call. *)
Definition rejecting : @World (list string) :=
  world [] [CallError (OtherError "no such method")] [].

(** Both the dial and the listen of the construction succeed. *)
Definition welcoming : @World (list string) :=
  world [DialOk 0] [] [ListenOk 0].

(** * Properties *)

Section Properties.

Context {ServerStatus : Type} {Consumer : Type}.

Lemma emitted_app (w w' : @World Consumer) d :
  trace w' = trace w ++ d -> emitted w w' = d.
Proof.
  intros H. unfold emitted. rewrite H, skipn_app, Nat.sub_diag, skipn_all.
  reflexivity.
Qed.

Lemma emitted_refl (w : @World Consumer) : emitted w w = [].
Proof. unfold emitted. apply skipn_all. Qed.

(** Symbolic execution: unfold the client down to the scripts, and branch on
    each outcome the environment is asked for. *)
Ltac run :=
  cbv [invoke CreateGame RemoveGame NewClientRPC CloseConnection connect
       GameConnected GameClosed Status returned
       for_lt for_iter bind ret panic emit log_Printf rpc_Call
       net_DialTimeout net_Listen listener_Close
       result after events Nat.sub negb is_ErrShutdown
       dial_now call_now listen_now record next_dial next_call next_listen
       set_consumer set_relay set_listener] in *;
  cbn [dial_script call_script listen_script dials calls listens consumer
       trace relay listener callback client fst snd] in *.

Ltac cases :=
  repeat (run;
          match goal with
          | |- context [match call_script ?w ?n with _ => _ end] =>
            destruct (call_script w n) as [?|[|?]] eqn:?
          | |- context [match dial_script ?w ?n with _ => _ end] =>
            destruct (dial_script w n) eqn:?
          | |- context [match listen_script ?w ?n with _ => _ end] =>
            destruct (listen_script w n) eqn:?
          end);
  run.

Ltac norm_emitted :=
  rewrite ?emitted_refl in *;
  repeat (erewrite emitted_app in *
            by (cbn [trace]; rewrite <- ?app_assoc; cbn [app]; reflexivity)).

(** Every run of an outbound operation, branch by branch. *)
Ltac outbound c op :=
  destruct op; destruct c as [? [?|] ?]; cases; norm_emitted.

(** C1 (as amended).  An invocation of CreateGame or RemoveGame reconnects
    once after each call attempt that failed as transport-shutdown and at no
    other time; over the two attempts of an invocation that is at most two
    reconnects. *)
Theorem reconnect_after_each_shutdown_failure
    (c : @ClientRPC ServerStatus Consumer) (op : Invocation)
    (w : @World Consumer) :
  let ev := events (invoke c op) w in
  dial_attempts ev = shutdown_failures ev /\ dial_attempts ev <= 2.
Proof.
  outbound c op; cbn; auto.
Qed.

(** C2.  An invocation makes at most two call attempts.  When the relay
    answers the first attempt of a client holding a handle with
    transport-shutdown and the dial of the reconnect succeeds, there are
    exactly two attempts, both carrying the request of the operation: the
    failed one and one retry; what the relay answers to that retry is what
    the invocation returns (its boolean, or false when the retry fails). *)
Theorem retry_exactly_once
    (c : @ClientRPC ServerStatus Consumer) (op : Invocation)
    (w : @World Consumer) :
  let ev := events (invoke c op) w in
  call_attempts ev <= 2 /\
  (forall connection,
      relay c <> None ->
      call_now w = CallError ErrShutdown ->
      dial_now w = DialOk connection ->
      let retry := call_script w (S (calls w)) in
      call_attempts ev = 2 /\
      call_outcomes ev = [CallError ErrShutdown; retry] /\
      call_requests ev = [request_of op; request_of op] /\
      returned (invoke c op) w = Some (reported retry)).
Proof.
  outbound c op; cbn; (split; [lia|]); intros ? Hrelay Hcall Hdial;
    run; try congruence;
    repeat match goal with
           | H : call_script _ _ = _ |- _ => rewrite H; clear H
           end;
    repeat split; reflexivity.
Qed.

(** Find where a given event sits in an explicit trace. *)
Ltac locate H :=
  match type of H with
  | [] = ?pre ++ _ :: _ => destruct pre; discriminate H
  | _ :: _ = ?pre ++ _ :: _ =>
    let e := fresh "e" in
    destruct pre as [|e pre]; cbn [app] in H;
    [ try discriminate H; injection H as ?; subst
    | injection H as ? H; subst e; locate H ]
  end.

(** C3.  On a client holding a relay handle, a failure ends the invocation,
    at the first attempt as at the retry.  When the relay answers an attempt
    with transport-shutdown and the dial of the reconnect fails, the
    invocation returns false and that attempt was its last call.  When the
    relay answers an attempt with any other error, the invocation returns
    false, that attempt was its last call, and no dial follows it: none at
    all at the first attempt, only the earlier reconnect at the retry. *)
Theorem failure_ends_invocation
    (c : @ClientRPC ServerStatus Consumer) (op : Invocation)
    (w : @World Consumer) :
  let ev := events (invoke c op) w in
  relay c <> None ->
  (forall err,
      call_now w = CallError ErrShutdown ->
      dial_now w = DialErr err ->
      returned (invoke c op) w = Some false /\
      call_outcomes ev = [CallError ErrShutdown] /\
      dial_outcomes ev = [DialErr err]) /\
  (forall msg,
      call_now w = CallError (OtherError msg) ->
      returned (invoke c op) w = Some false /\
      call_outcomes ev = [CallError (OtherError msg)] /\
      dial_outcomes ev = []) /\
  (forall connection err,
      call_now w = CallError ErrShutdown ->
      dial_now w = DialOk connection ->
      call_script w (S (calls w)) = CallError ErrShutdown ->
      dial_script w (S (dials w)) = DialErr err ->
      returned (invoke c op) w = Some false /\
      call_outcomes ev = [CallError ErrShutdown; CallError ErrShutdown] /\
      dial_outcomes ev = [DialOk connection; DialErr err]) /\
  (forall connection msg,
      call_now w = CallError ErrShutdown ->
      dial_now w = DialOk connection ->
      call_script w (S (calls w)) = CallError (OtherError msg) ->
      returned (invoke c op) w = Some false /\
      call_outcomes ev = [CallError ErrShutdown; CallError (OtherError msg)] /\
      dial_outcomes ev = [DialOk connection]).
Proof.
  outbound c op; cbn; intros Hrelay; try congruence;
    (split; [|split; [|split]]); intros; run;
    repeat split; congruence.
Qed.

(** C4.  Every call attempt of CreateGame carries the method NewGame and a
    GameData with the given name and password, every call attempt of
    RemoveGame the method RemoveGame and a GameData with the given name and
    the empty password; a client holding a relay handle sends it.  The
    boolean the relay reports is the boolean returned, and true is returned
    only when the relay reported true. *)
Theorem request_and_reply_pass_through
    (c : @ClientRPC ServerStatus Consumer) (op : Invocation)
    (w : @World Consumer) :
  let ev := events (invoke c op) w in
  Forall (eq (request_of op)) (call_requests ev) /\
  (relay c <> None -> hd_error (call_requests ev) = Some (request_of op)) /\
  (forall b, In (CallReply b) (call_outcomes ev) ->
             returned (invoke c op) w = Some b) /\
  (returned (invoke c op) w = Some true <->
   In (CallReply true) (call_outcomes ev)).
Proof.
  outbound c op; cbn; (split; [|split; [|split; [|split]]]).
  all: try solve [repeat constructor].
  all: try solve [intros H; solve [reflexivity | congruence]].
  all: try solve [intros b H; cbn in H; intuition congruence].
  all: try solve [intros H; inversion H; subst; cbn; auto].
  all: try solve [intros H; cbn in H; intuition congruence].
Qed.

(** C5.  When the dial fails, connect returns false and leaves the receiver,
    and with it the relay handle, as it was. *)
Theorem connect_failure_keeps_handle
    (c : @ClientRPC ServerStatus Consumer) (w : @World Consumer) (err : error) :
  dial_now w = DialErr err ->
  exists c', result (connect c) w = Val (c', false) /\
             relay c' = relay c /\ c' = c.
Proof.
  intros H. exists c. run. rewrite H. auto.
Qed.

(** C6.  CloseConnection closes the listener and nothing else: it returns
    the receiver with its relay handle and callback untouched, it neither
    dials nor calls, and CreateGame and RemoveGame behave after it as they
    would have without it. *)
Theorem CloseConnection_closes_listener_only
    (c : @ClientRPC ServerStatus Consumer) (w : @World Consumer) :
  (forall l, listener c = Some l ->
             result (CloseConnection c) w = Val c /\
             events (CloseConnection c) w = [EvClose l]) /\
  (forall c', result (CloseConnection c) w = Val c' ->
              relay c' = relay c /\ callback c' = callback c) /\
  (dial_attempts (events (CloseConnection c) w) = 0 /\
   call_attempts (events (CloseConnection c) w) = 0) /\
  (forall op, result (invoke c op) (after (CloseConnection c) w)
              = result (invoke c op) w).
Proof.
  split; [|split; [|split]].
  - intros l Hl. destruct c as [cb r l0]. cbn in Hl. subst l0. run.
    norm_emitted. split; reflexivity.
  - intros c'. destruct c as [cb r [l0|]]; run; intros H; inversion H;
      split; reflexivity.
  - destruct c as [cb r [l0|]]; run; norm_emitted; split; reflexivity.
  - intros op. destruct op; destruct c as [cb [h|] [l0|]]; cases; reflexivity.
Qed.

(** C7.  NewClientRPC returns nil exactly when the dial of the initial
    connect fails or binding the listener fails; when both succeed it
    returns the client holding the given callback, the handle on the fresh
    connection and the bound listener. *)
Theorem NewClientRPC_nil_iff_setup_fails
    (cb : @ClientCallback ServerStatus Consumer) (w : @World Consumer) :
  (result (NewClientRPC cb) w = Val None <->
   (exists err, dial_now w = DialErr err) \/
   (exists err, listen_now w = ListenErr err)) /\
  (forall connection rpcLn,
      dial_now w = DialOk connection ->
      listen_now w = ListenOk rpcLn ->
      result (NewClientRPC cb) w
      = Val (Some (mkClientRPC cb (Some (jsonrpc_NewClient connection))
                               (Some rpcLn)))).
Proof.
  cases; (split; [split|]); intros; try reflexivity; try congruence; eauto;
    try (match goal with
         | H : _ \/ _ |- _ => destruct H as [[? H]|[? H]]; congruence
         end).
Qed.

(** C8.  A GameConnected (GameClosed) call from the relay reaches the
    consumer's GameConnected (GameClosed) exactly once, with the Name of the
    request; the Password plays no part. *)
Theorem notification_forwarded_once
    (m : @ClientRPCMethods ServerStatus Consumer) (inp : GameData)
    (response : bool) (w : @World Consumer) :
  (events (GameConnected m inp response) w = [EvGameConnected (Name inp)] /\
   consumer (after (GameConnected m inp response) w)
   = cbGameConnected (callback (client m)) (Name inp) (consumer w) /\
   forall password,
     GameConnected m (mkGameData (Name inp) password) response w
     = GameConnected m inp response w) /\
  (events (GameClosed m inp response) w = [EvGameClosed (Name inp)] /\
   consumer (after (GameClosed m inp response) w)
   = cbGameClosed (callback (client m)) (Name inp) (consumer w) /\
   forall password,
     GameClosed m (mkGameData (Name inp) password) response w
     = GameClosed m inp response w).
Proof.
  repeat split; run; norm_emitted; reflexivity.
Qed.

(** C9.  The GameConnected and GameClosed handlers answer the relay with a
    nil error whatever the consumer does, and leave the boolean response as
    they found it. *)
Theorem notification_handlers_answer_nil
    (m : @ClientRPCMethods ServerStatus Consumer) (inp : GameData)
    (response : bool) (w : @World Consumer) :
  result (GameConnected m inp response) w = Val (response, None) /\
  result (GameClosed m inp response) w = Val (response, None).
Proof.
  split; reflexivity.
Qed.

(** C10.  The Status handler panics exactly when the consumer's Status
    returns nil; when it returns a snapshot, the handler copies it into the
    response and answers with a nil error. *)
Theorem Status_safe_iff_snapshot_not_nil
    (m : @ClientRPCMethods ServerStatus Consumer) (inp : string)
    (response : ServerStatus) (w : @World Consumer) :
  let p := fst (cbStatus (callback (client m)) (consumer w)) in
  (result (Status m inp response) w = Panic <-> p = None) /\
  (forall st, p = Some st ->
              result (Status m inp response) w = Val (st, None)).
Proof.
  run. destruct (cbStatus (callback (client m)) (consumer w)) as [[st|] s];
    cbn; split; try split; intros; congruence.
Qed.

(** ** Further properties of the outbound side *)

Lemma RpcClient_eqb_refl (h : RpcClient) : RpcClient_eqb h h = true.
Proof. destruct h as [n]. apply Nat.eqb_refl. Qed.

(** X1.  connect dials exactly once, over tcp to localhost:7398 with a
    timeout of 10 seconds, and calls nothing.  It never touches the callback
    or the listener of the client, and it returns true exactly when the dial
    gave a connection, whose handle is then the client's relay. *)
Theorem connect_true_iff_fresh_handle
    (c : @ClientRPC ServerStatus Consumer) (w : @World Consumer) :
  exists c' ok,
    result (connect c) w = Val (c', ok) /\
    callback c' = callback c /\ listener c' = listener c /\
    (ok = true <->
     exists connection, dial_now w = DialOk connection /\
                        relay c' = Some (jsonrpc_NewClient connection)) /\
    filter is_dial (events (connect c) w)
    = [EvDial "tcp" "localhost:7398" 10 (dial_now w)] /\
    call_attempts (events (connect c) w) = 0.
Proof.
  destruct c as [cb r l]. cases; norm_emitted; do 2 eexists;
    (split; [reflexivity|]); cbn; repeat split; intros;
    try congruence; eauto.
  all: match goal with
       | H : exists _, _ |- _ => destruct H as [? [? _]]; congruence
       end.
Qed.

(** X2.  An outbound operation stays on the outbound side: it only calls,
    dials and logs, it leaves the consumer alone, and the client it returns
    has the callback and the listener it started with. *)
Theorem invocation_stays_outbound
    (c : @ClientRPC ServerStatus Consumer) (op : Invocation)
    (w : @World Consumer) :
  forallb is_outbound (events (invoke c op) w) = true /\
  consumer (after (invoke c op) w) = consumer w /\
  (forall c' b, result (invoke c op) w = Val (c', b) ->
                callback c' = callback c /\ listener c' = listener c).
Proof.
  outbound c op; cbn; (split; [reflexivity | split; [reflexivity |]]);
    intros c' b H; inversion H; split; reflexivity.
Qed.

(** X3.  The relay handle a client holds after an outbound operation is the
    handle on the last connection the operation dialled with success; with
    no successful dial it is the handle it held before. *)
Theorem invocation_keeps_last_dialled_handle
    (c : @ClientRPC ServerStatus Consumer) (op : Invocation)
    (w : @World Consumer) :
  forall c' b, result (invoke c op) w = Val (c', b) ->
               relay c' = handle_after (relay c) (events (invoke c op) w).
Proof.
  outbound c op; intros c' b H; inversion H; reflexivity.
Qed.

(** X4.  Every call attempt of an outbound operation goes over the handle
    the client holds at that moment: the first over the handle it came
    with, the retry over the handle on the connection just dialled. *)
Theorem invocation_calls_on_current_handle
    (c : @ClientRPC ServerStatus Consumer) (op : Invocation)
    (w : @World Consumer) :
  calls_on_current_handle (relay c) (events (invoke c op) w) = true.
Proof.
  outbound c op; cbn; rewrite ?RpcClient_eqb_refl, ?Nat.eqb_refl; reflexivity.
Qed.

(** X5.  An outbound operation panics exactly when the client holds no relay
    handle, and then before anything was sent, dialled or logged. *)
Theorem invocation_panics_iff_no_handle
    (c : @ClientRPC ServerStatus Consumer) (op : Invocation)
    (w : @World Consumer) :
  (result (invoke c op) w = Panic <-> relay c = None) /\
  (relay c = None -> events (invoke c op) w = []).
Proof.
  outbound c op; repeat split; intros; congruence.
Qed.

(** X6.  On a client holding a relay handle, an outbound operation logs
    exactly when one of its call attempts failed: no failure goes
    unlogged, and an operation answered at once logs nothing. *)
Theorem invocation_logs_iff_attempt_failed
    (c : @ClientRPC ServerStatus Consumer) (op : Invocation)
    (w : @World Consumer) :
  relay c <> None ->
  (existsb is_log (events (invoke c op) w) = true <->
   exists err, In (CallError err) (call_outcomes (events (invoke c op) w))).
Proof.
  outbound c op; cbn; intros Hrelay; try congruence; split; intros H;
    try reflexivity; try discriminate;
    try (eexists; left; reflexivity);
    destruct H as [err [H|[]]]; discriminate.
Qed.

(** X13.  An outbound operation ends at the first reply: the call the relay
    answered is the last thing it does, nothing is sent, dialled or logged
    after it, and the boolean of that reply is what is returned. *)
Theorem invocation_stops_at_reply
    (c : @ClientRPC ServerStatus Consumer) (op : Invocation)
    (w : @World Consumer) :
  forall pre post h method args b,
    events (invoke c op) w = pre ++ EvCall h method args (CallReply b) :: post ->
    post = [] /\ returned (invoke c op) w = Some b.
Proof.
  outbound c op; intros * H; locate H; split; reflexivity.
Qed.

(** ** Sequences of outbound operations *)

Lemma call_outcomes_app (t t' : list Event) :
  call_outcomes (t ++ t') = call_outcomes t ++ call_outcomes t'.
Proof.
  induction t as [|e t IH]; [reflexivity|].
  destruct e; cbn; rewrite IH; reflexivity.
Qed.

Lemma call_attempts_app (t t' : list Event) :
  call_attempts (t ++ t') = call_attempts t + call_attempts t'.
Proof. unfold call_attempts. rewrite filter_app, length_app. reflexivity. Qed.

Lemma dial_attempts_app (t t' : list Event) :
  dial_attempts (t ++ t') = dial_attempts t + dial_attempts t'.
Proof. unfold dial_attempts. rewrite filter_app, length_app. reflexivity. Qed.

Lemma shutdown_failures_app (t t' : list Event) :
  shutdown_failures (t ++ t') = shutdown_failures t + shutdown_failures t'.
Proof.
  unfold shutdown_failures.
  rewrite call_outcomes_app, filter_app, length_app. reflexivity.
Qed.

Lemma emitted_trans (w w1 w2 : @World Consumer) :
  trace w1 = trace w ++ emitted w w1 ->
  trace w2 = trace w1 ++ emitted w1 w2 ->
  trace w2 = trace w ++ emitted w w2 /\
  emitted w w2 = emitted w w1 ++ emitted w1 w2.
Proof.
  intros H1 H2.
  assert (H : trace w2 = trace w ++ (emitted w w1 ++ emitted w1 w2))
    by (rewrite app_assoc, <- H1; exact H2).
  rewrite (emitted_app _ _ _ H). split; [exact H | reflexivity].
Qed.

(** An outbound operation only adds to the trace. *)
Lemma invoke_extends_trace
    (c : @ClientRPC ServerStatus Consumer) (op : Invocation)
    (w : @World Consumer) :
  trace (after (invoke c op) w) = trace w ++ events (invoke c op) w.
Proof.
  outbound c op; rewrite <- ?app_assoc; cbn [app]; rewrite ?app_nil_r;
    reflexivity.
Qed.

(** With a relay handle an outbound operation returns, and keeps one. *)
Lemma invoke_returns
    (c : @ClientRPC ServerStatus Consumer) (op : Invocation)
    (w : @World Consumer) :
  relay c <> None ->
  exists c' b,
    result (invoke c op) w = Val (c', b) /\ relay c' <> None /\
    callback c' = callback c /\ listener c' = listener c.
Proof.
  outbound c op; intros H; try congruence; do 2 eexists;
    (split; [reflexivity|]); cbn; repeat split; congruence.
Qed.

Lemma invoke_bounds
    (c : @ClientRPC ServerStatus Consumer) (op : Invocation)
    (w : @World Consumer) :
  call_attempts (events (invoke c op) w) <= 2 /\
  dial_attempts (events (invoke c op) w)
  = shutdown_failures (events (invoke c op) w).
Proof.
  outbound c op; cbn; split; auto.
Qed.

(** How a session unfolds at its first operation. *)
Lemma session_cons
    (c : @ClientRPC ServerStatus Consumer) (op : Invocation)
    (ops : list Invocation) (w : @World Consumer) :
  session c (op :: ops) w
  = match invoke c op w with
    | (Val (c1, b), w1) =>
      match session c1 ops w1 with
      | (Val (c2, bs), w2) => (Val (c2, b :: bs), w2)
      | (Panic, w2) => (Panic, w2)
      end
    | (Panic, w1) => (Panic, w1)
    end.
Proof.
  cbn [session]. unfold bind, ret.
  destruct (invoke c op w) as [[[c1 b]|] w1]; [|reflexivity].
  destruct (session c1 ops w1) as [[[c2 bs]|] w2]; reflexivity.
Qed.

Lemma session_extends_trace (ops : list Invocation) :
  forall (c : @ClientRPC ServerStatus Consumer) (w : @World Consumer),
    trace (after (session c ops) w) = trace w ++ events (session c ops) w.
Proof.
  induction ops as [|op ops IH]; intros c w.
  - unfold events, after. cbn. rewrite emitted_refl, app_nil_r. reflexivity.
  - pose proof (invoke_extends_trace c op w) as H1.
    unfold events, after in *. rewrite session_cons.
    destruct (invoke c op w) as [[[c1 b]|] w1]; cbn [snd] in *; [|exact H1].
    specialize (IH c1 w1).
    destruct (session c1 ops w1) as [[[c2 bs]|] w2]; cbn [snd] in *;
      apply (emitted_trans w w1 w2 H1 IH).
Qed.

Lemma session_events_cons
    (c : @ClientRPC ServerStatus Consumer) (op : Invocation)
    (ops : list Invocation) (w : @World Consumer) :
  events (session c (op :: ops)) w
  = events (invoke c op) w
    ++ match invoke c op w with
       | (Val (c1, _), w1) => events (session c1 ops) w1
       | (Panic, _) => []
       end.
Proof.
  pose proof (invoke_extends_trace c op w) as H1.
  unfold events, after in *. rewrite session_cons.
  destruct (invoke c op w) as [[[c1 b]|] w1]; cbn [snd] in *;
    [|rewrite app_nil_r; reflexivity].
  pose proof (session_extends_trace ops c1 w1) as H2.
  unfold events, after in H2.
  destruct (session c1 ops w1) as [[[c2 bs]|] w2]; cbn [snd] in *;
    apply (emitted_trans w w1 w2 H1 H2).
Qed.

Lemma session_returns (ops : list Invocation) :
  forall (c : @ClientRPC ServerStatus Consumer) (w : @World Consumer),
    relay c <> None ->
    exists c' bs,
      result (session c ops) w = Val (c', bs) /\
      length bs = length ops /\ relay c' <> None /\
      callback c' = callback c /\ listener c' = listener c.
Proof.
  induction ops as [|op ops IH]; intros c w Hrelay.
  - exists c, []. repeat split; auto.
  - destruct (invoke_returns c op w Hrelay) as (c1 & b & H1 & Hr1 & Hc1 & Hl1).
    unfold result in *. rewrite session_cons.
    destruct (invoke c op w) as [r1 w1]; cbn [fst] in H1; subst r1.
    destruct (IH c1 w1 Hr1) as (c2 & bs & H2 & Hlen & Hr2 & Hc2 & Hl2).
    destruct (session c1 ops w1) as [r2 w2]; cbn [fst] in H2; subst r2.
    exists c2, (b :: bs). cbn [fst length].
    repeat split; auto; congruence.
Qed.

(** X7.  On a client holding a relay handle, any sequence of outbound
    operations runs to its end without a panic: each operation returns a
    boolean, and the client keeps a relay handle, its callback and its
    listener throughout. *)
Theorem session_never_panics
    (c : @ClientRPC ServerStatus Consumer) (ops : list Invocation)
    (w : @World Consumer) :
  relay c <> None ->
  exists c' bs,
    result (session c ops) w = Val (c', bs) /\
    length bs = length ops /\ relay c' <> None /\
    callback c' = callback c /\ listener c' = listener c.
Proof.
  apply session_returns.
Qed.

(** X8.  Over any sequence of n outbound operations the client makes at most
    2n call attempts, and dials once for each attempt that failed as
    transport-shutdown and never otherwise, hence at most 2n times. *)
Theorem session_attempts_bounded (ops : list Invocation) :
  forall (c : @ClientRPC ServerStatus Consumer) (w : @World Consumer),
    call_attempts (events (session c ops) w) <= 2 * length ops /\
    dial_attempts (events (session c ops) w)
    = shutdown_failures (events (session c ops) w) /\
    dial_attempts (events (session c ops) w) <= 2 * length ops.
Proof.
  assert (Hle : forall t, shutdown_failures t <= call_attempts t).
  { induction t as [|e t IH]; [cbn; lia|].
    unfold shutdown_failures, call_attempts in *.
    destruct e as [| ? ? ? [|[|]] | | | | | | | |]; cbn in *; lia. }
  induction ops as [|op ops IH]; intros c w.
  - unfold events, after. cbn. rewrite emitted_refl. cbn. lia.
  - rewrite session_events_cons.
    rewrite call_attempts_app, dial_attempts_app, shutdown_failures_app.
    destruct (invoke_bounds c op w) as [Hc Hd].
    pose proof (Hle (events (invoke c op) w)) as Hs.
    destruct (invoke c op w) as [[[c1 b]|] w1].
    + destruct (IH c1 w1) as (IHc & IHd & IHb). cbn [length]. lia.
    + cbn [length]. cbn. lia.
Qed.

(** ** Construction, teardown and the Status handler *)

(** X9.  NewClientRPC never panics and dials exactly once.  When the dial
    fails it does not try to listen.  The RPC methods are registered and the
    accept loop is started only when the client is returned, each exactly
    once, the loop on the listener bound on tcp port 7399 that the client
    holds; when nil is returned neither happens. *)
Theorem NewClientRPC_serves_only_when_bound
    (cb : @ClientCallback ServerStatus Consumer) (w : @World Consumer) :
  let ev := events (NewClientRPC cb) w in
  (exists r, result (NewClientRPC cb) w = Val r) /\
  dial_attempts ev = 1 /\
  ((exists err, dial_now w = DialErr err) -> filter is_listen ev = []) /\
  (result (NewClientRPC cb) w = Val None ->
   accept_loops ev = [] /\ filter is_register ev = []) /\
  (forall c, result (NewClientRPC cb) w = Val (Some c) ->
             exists rpcLn,
               listener c = Some rpcLn /\
               filter is_listen ev = [EvListen "tcp" ":7399" (ListenOk rpcLn)] /\
               filter is_register ev = [EvRegister] /\
               accept_loops ev = [rpcLn]).
Proof.
  cases; norm_emitted; cbn;
    (split; [eexists; reflexivity|]); (split; [reflexivity|]);
    (split; [|split]).
  all: try (intros [? H]; solve [reflexivity | congruence]).
  all: try (intros H; solve [split; reflexivity | discriminate H]).
  all: intros c H; inversion H; subst; eexists; repeat split; reflexivity.
Qed.

(** X10.  A client returned by NewClientRPC can be used without a panic:
    any sequence of CreateGame and RemoveGame runs to its end on it,
    whatever the relay and the network do, and CloseConnection on the
    client it leaves returns. *)
Theorem constructed_client_never_panics
    (cb : @ClientCallback ServerStatus Consumer) (w : @World Consumer)
    (c : @ClientRPC ServerStatus Consumer) :
  result (NewClientRPC cb) w = Val (Some c) ->
  forall (ops : list Invocation) (w' : @World Consumer),
  exists c' bs,
    result (session c ops) w' = Val (c', bs) /\
    result (CloseConnection c') (after (session c ops) w') = Val c'.
Proof.
  intros Hnew ops w'.
  assert (Hc : relay c <> None /\ listener c <> None).
  { revert Hnew. cases; intros H; inversion H; subst; cbn;
      split; discriminate. }
  destruct Hc as [Hrelay Hlistener].
  destruct (session_returns ops c w' Hrelay) as (c' & bs & Hres & _ & _ & _ & Hl).
  exists c', bs. split; [exact Hres|].
  destruct c' as [cb' r' [l'|]]; cbn in Hl; [reflexivity | congruence].
Qed.

(** X11.  CloseConnection panics exactly when the client holds no listener,
    and then closes nothing.  It does not clear the listener it closed: a
    second CloseConnection closes the same listener again. *)
Theorem CloseConnection_keeps_the_closed_listener
    (c : @ClientRPC ServerStatus Consumer) (w : @World Consumer) :
  (result (CloseConnection c) w = Panic <-> listener c = None) /\
  (listener c = None -> events (CloseConnection c) w = []) /\
  (forall l, listener c = Some l ->
             events (bind (CloseConnection c) CloseConnection) w
             = [EvClose l; EvClose l]).
Proof.
  destruct c as [cb r [l0|]]; run; norm_emitted;
    (split; [split; intros; congruence | split]); intros; congruence.
Qed.

(** X12.  The Status handler asks the consumer for its status exactly once,
    also when it then panics on a nil answer, and the consumer is left as
    that one query leaves it.  Neither the argument of the request nor what
    the response held before plays a part. *)
Theorem Status_asks_consumer_once
    (m : @ClientRPCMethods ServerStatus Consumer) (inp : string)
    (response : ServerStatus) (w : @World Consumer) :
  events (Status m inp response) w = [EvStatus] /\
  consumer (after (Status m inp response) w)
  = snd (cbStatus (callback (client m)) (consumer w)) /\
  forall inp' response',
    Status m inp' response' w = Status m inp response w.
Proof.
  run. destruct (cbStatus (callback (client m)) (consumer w)) as [[st|] s];
    run; norm_emitted; repeat split.
Qed.

End Properties.

(** * Concrete runs *)

Example CreateGame_true :
  returned (CreateGame hosted "room1" "pw") (responsive true) = Some true.
Proof. reflexivity. Qed.

Example CreateGame_false :
  returned (CreateGame hosted "room1" "pw") (responsive false) = Some false.
Proof. reflexivity. Qed.

Example CreateGame_lost_once_trace :
  events (CreateGame hosted "room1" "pw") (lost_once true)
  = [ EvCall (jsonrpc_NewClient 0) "ServerRPCMethods.NewGame"
             (mkGameData "room1" "pw") (CallError ErrShutdown);
      EvDial "tcp" "localhost:7398" 10 (DialOk 1);
      EvLog "Connected to relay server" None;
      EvLog "ClientRPC: Lost connection to relay but was able to reconnect" None;
      EvCall (jsonrpc_NewClient 1) "ServerRPCMethods.NewGame"
             (mkGameData "room1" "pw") (CallReply true) ].
Proof. reflexivity. Qed.

Example RemoveGame_lost_twice_trace :
  events (RemoveGame hosted "room1") lost_twice
  = [ EvCall (jsonrpc_NewClient 0) "ServerRPCMethods.RemoveGame"
             (mkGameData "room1" "") (CallError ErrShutdown);
      EvDial "tcp" "localhost:7398" 10 (DialOk 1);
      EvLog "Connected to relay server" None;
      EvLog "ClientRPC: Lost connection to relay but was able to reconnect" None;
      EvCall (jsonrpc_NewClient 1) "ServerRPCMethods.RemoveGame"
             (mkGameData "room1" "") (CallError ErrShutdown);
      EvDial "tcp" "localhost:7398" 10 (DialOk 2);
      EvLog "Connected to relay server" None;
      EvLog "ClientRPC: Lost connection to relay but was able to reconnect" None ].
Proof. reflexivity. Qed.

Example NewClientRPC_welcoming :
  result (NewClientRPC journal) welcoming = Val (Some hosted).
Proof. reflexivity. Qed.

Example GameConnected_journal :
  consumer (after (GameConnected (mkClientRPCMethods hosted)
                                 (mkGameData "room1" "secret") false)
                  (responsive true))
  = ["connected room1"].
Proof. reflexivity. Qed.

(** C1, as first stated, fails: when the retry is shut down too, CreateGame
    reconnects a second time. *)
Lemma second_reconnect_after_failed_retry :
  ~ dial_attempts (events (CreateGame hosted "room1" "pw") lost_twice) <= 1.
Proof.
  change (~ 2 <= 1). lia.
Qed.

Lemma retry_exactly_once_witness :
  (call_outcomes (events (CreateGame hosted "room1" "pw") (lost_once true))
   = [CallError ErrShutdown; CallReply true] /\
   returned (CreateGame hosted "room1" "pw") (lost_once true) = Some true) /\
  (call_outcomes (events (RemoveGame hosted "room1") lost_then_rejected)
   = [CallError ErrShutdown; CallError (OtherError "no such method")] /\
   call_requests (events (RemoveGame hosted "room1") lost_then_rejected)
   = [("ServerRPCMethods.RemoveGame", mkGameData "room1" "");
      ("ServerRPCMethods.RemoveGame", mkGameData "room1" "")] /\
   returned (RemoveGame hosted "room1") lost_then_rejected = Some false).
Proof.
  assert (Hrelay : relay hosted <> None) by discriminate.
  split.
  - destruct (proj2 (retry_exactly_once hosted room1 (lost_once true))
                    1 Hrelay eq_refl eq_refl)
      as (_ & Hout & _ & Hret).
    split; [exact Hout | exact Hret].
  - destruct (proj2 (retry_exactly_once hosted (InvRemoveGame "room1")
                                        lost_then_rejected)
                    1 Hrelay eq_refl eq_refl)
      as (_ & Hout & Hreq & Hret).
    split; [exact Hout | split; [exact Hreq | exact Hret]].
Defined.

Lemma failure_ends_invocation_witness :
  (returned (CreateGame hosted "room1" "pw") unreachable = Some false /\
   call_outcomes (events (CreateGame hosted "room1" "pw") unreachable)
   = [CallError ErrShutdown] /\
   dial_outcomes (events (CreateGame hosted "room1" "pw") unreachable)
   = [DialErr (OtherError "connection refused")]) /\
  (returned (RemoveGame hosted "room1") rejecting = Some false /\
   call_outcomes (events (RemoveGame hosted "room1") rejecting)
   = [CallError (OtherError "no such method")] /\
   dial_outcomes (events (RemoveGame hosted "room1") rejecting) = []) /\
  (returned (RemoveGame hosted "room1") lost_for_good = Some false /\
   call_outcomes (events (RemoveGame hosted "room1") lost_for_good)
   = [CallError ErrShutdown; CallError ErrShutdown] /\
   dial_outcomes (events (RemoveGame hosted "room1") lost_for_good)
   = [DialOk 1; DialErr (OtherError "connection refused")]) /\
  (returned (CreateGame hosted "room1" "pw") lost_then_rejected = Some false /\
   call_outcomes (events (CreateGame hosted "room1" "pw") lost_then_rejected)
   = [CallError ErrShutdown; CallError (OtherError "no such method")] /\
   dial_outcomes (events (CreateGame hosted "room1" "pw") lost_then_rejected)
   = [DialOk 1]).
Proof.
  assert (Hrelay : relay hosted <> None) by discriminate.
  split; [|split; [|split]].
  - exact (proj1 (failure_ends_invocation hosted room1 unreachable Hrelay)
                 (OtherError "connection refused") eq_refl eq_refl).
  - exact (proj1 (proj2 (failure_ends_invocation
                           hosted (InvRemoveGame "room1") rejecting Hrelay))
                 "no such method" eq_refl).
  - exact (proj1 (proj2 (proj2 (failure_ends_invocation
                                  hosted (InvRemoveGame "room1") lost_for_good
                                  Hrelay)))
                 1 (OtherError "connection refused")
                 eq_refl eq_refl eq_refl eq_refl).
  - exact (proj2 (proj2 (proj2 (failure_ends_invocation
                                  hosted room1 lost_then_rejected Hrelay)))
                 1 "no such method" eq_refl eq_refl eq_refl).
Defined.

Lemma request_and_reply_pass_through_witness :
  relay hosted <> None /\
  In (CallReply true) (call_outcomes (events (invoke hosted room1) (lost_once true))) /\
  hd_error (call_requests (events (invoke hosted room1) (lost_once true)))
  = Some ("ServerRPCMethods.NewGame", mkGameData "room1" "pw") /\
  returned (invoke hosted room1) (lost_once true) = Some true.
Proof.
  assert (Hrelay : relay hosted <> None) by discriminate.
  assert (Hin : In (CallReply true)
                   (call_outcomes (events (invoke hosted room1) (lost_once true))))
    by (right; left; reflexivity).
  split; [exact Hrelay | split; [exact Hin | split]].
  - exact (proj1 (proj2 (request_and_reply_pass_through
                           hosted room1 (lost_once true))) Hrelay).
  - exact (proj1 (proj2 (proj2 (request_and_reply_pass_through
                                  hosted room1 (lost_once true)))) true Hin).
Defined.

Lemma connect_failure_keeps_handle_witness :
  dial_now unreachable = DialErr (OtherError "connection refused") /\
  exists c', result (connect hosted) unreachable = Val (c', false) /\
             relay c' = relay hosted /\ c' = hosted.
Proof.
  split; [reflexivity |].
  apply (connect_failure_keeps_handle hosted unreachable
           (OtherError "connection refused")).
  reflexivity.
Defined.

Lemma CloseConnection_closes_listener_only_witness :
  listener hosted = Some 0 /\
  result (CloseConnection hosted) (responsive true) = Val hosted /\
  events (CloseConnection hosted) (responsive true) = [EvClose 0] /\
  relay hosted = relay hosted /\ callback hosted = callback hosted.
Proof.
  assert (Hl : listener hosted = Some 0) by reflexivity.
  pose proof (CloseConnection_closes_listener_only hosted (responsive true))
    as [Hclose [Hframe _]].
  destruct (Hclose 0 Hl) as [Hres Hev].
  split; [exact Hl | split; [exact Hres | split; [exact Hev |]]].
  exact (Hframe hosted Hres).
Defined.

Lemma NewClientRPC_nil_iff_setup_fails_witness :
  dial_now welcoming = DialOk 0 /\
  listen_now welcoming = ListenOk 0 /\
  result (NewClientRPC journal) welcoming
  = Val (Some (mkClientRPC journal (Some (jsonrpc_NewClient 0)) (Some 0))) /\
  result (NewClientRPC journal) unreachable = Val None.
Proof.
  split; [reflexivity | split; [reflexivity | split]].
  - apply (proj2 (NewClientRPC_nil_iff_setup_fails journal welcoming) 0 0);
      reflexivity.
  - apply (proj1 (NewClientRPC_nil_iff_setup_fails journal unreachable)).
    left. exists (OtherError "connection refused"). reflexivity.
Defined.

Lemma Status_safe_iff_snapshot_not_nil_witness :
  result (Status (mkClientRPCMethods hosted) "" 7) (responsive true)
  = Val (0, None) /\
  result (Status (mkClientRPCMethods (mkClientRPC mute None None)) "" 7)
         (responsive true)
  = Panic.
Proof.
  split.
  - apply (proj2 (Status_safe_iff_snapshot_not_nil
                    (mkClientRPCMethods hosted) "" 7 (responsive true)) 0).
    reflexivity.
  - apply (proj1 (Status_safe_iff_snapshot_not_nil
                    (mkClientRPCMethods (mkClientRPC mute None None)) "" 7
                    (responsive true))).
    reflexivity.
Defined.

(** ** Runs for the further properties *)

Lemma invocation_stays_outbound_witness :
  result (invoke hosted room1) (lost_once true)
  = Val (mkClientRPC journal (Some (jsonrpc_NewClient 1)) (Some 0), true) /\
  callback (mkClientRPC journal (Some (jsonrpc_NewClient 1)) (Some 0))
  = callback hosted /\
  listener (mkClientRPC journal (Some (jsonrpc_NewClient 1)) (Some 0))
  = listener hosted.
Proof.
  assert (H : result (invoke hosted room1) (lost_once true)
              = Val (mkClientRPC journal (Some (jsonrpc_NewClient 1)) (Some 0),
                     true)) by reflexivity.
  split; [exact H |].
  exact (proj2 (proj2 (invocation_stays_outbound hosted room1 (lost_once true)))
               _ _ H).
Defined.

Lemma invocation_keeps_last_dialled_handle_witness :
  relay (mkClientRPC journal (Some (jsonrpc_NewClient 2)) (Some 0))
  = handle_after (relay hosted)
                 (events (invoke hosted (InvRemoveGame "room1")) lost_twice).
Proof.
  apply (invocation_keeps_last_dialled_handle
           hosted (InvRemoveGame "room1") lost_twice _ false).
  reflexivity.
Defined.

Lemma invocation_panics_iff_no_handle_witness :
  result (invoke (mkClientRPC journal None None) room1) (responsive true) = Panic /\
  events (invoke (mkClientRPC journal None None) room1) (responsive true) = [].
Proof.
  split.
  - apply (proj1 (invocation_panics_iff_no_handle
                    (mkClientRPC journal None None) room1 (responsive true))).
    reflexivity.
  - apply (proj2 (invocation_panics_iff_no_handle
                    (mkClientRPC journal None None) room1 (responsive true))).
    reflexivity.
Defined.

Lemma invocation_logs_iff_attempt_failed_witness :
  relay hosted <> None /\
  existsb is_log (events (invoke hosted room1) rejecting) = true.
Proof.
  assert (Hrelay : relay hosted <> None) by discriminate.
  split; [exact Hrelay |].
  apply (proj2 (invocation_logs_iff_attempt_failed hosted room1 rejecting Hrelay)).
  exists (OtherError "no such method"). left. reflexivity.
Defined.

Lemma invocation_stops_at_reply_witness :
  returned (invoke hosted room1) (lost_once true) = Some true.
Proof.
  refine (proj2 (invocation_stops_at_reply
                   hosted room1 (lost_once true)
                   [ EvCall (jsonrpc_NewClient 0) "ServerRPCMethods.NewGame"
                            (mkGameData "room1" "pw") (CallError ErrShutdown);
                     EvDial "tcp" "localhost:7398" 10 (DialOk 1);
                     EvLog "Connected to relay server" None;
                     EvLog "ClientRPC: Lost connection to relay but was able to reconnect"
                           None ]
                   [] (jsonrpc_NewClient 1) "ServerRPCMethods.NewGame"
                   (mkGameData "room1" "pw") true _)).
  reflexivity.
Defined.

Lemma session_never_panics_witness :
  relay hosted <> None /\
  exists c' bs,
    result (session hosted [room1; InvRemoveGame "room1"]) (lost_once true)
    = Val (c', bs) /\
    length bs = 2 /\ relay c' <> None /\
    callback c' = callback hosted /\ listener c' = listener hosted.
Proof.
  assert (Hrelay : relay hosted <> None) by discriminate.
  split; [exact Hrelay |].
  exact (session_never_panics hosted [room1; InvRemoveGame "room1"]
                              (lost_once true) Hrelay).
Defined.

Lemma NewClientRPC_serves_only_when_bound_witness :
  accept_loops (events (NewClientRPC journal) unreachable) = [] /\
  filter is_register (events (NewClientRPC journal) unreachable) = [] /\
  filter is_listen (events (NewClientRPC journal) unreachable) = [] /\
  exists rpcLn,
    listener hosted = Some rpcLn /\
    filter is_listen (events (NewClientRPC journal) welcoming)
    = [EvListen "tcp" ":7399" (ListenOk rpcLn)] /\
    filter is_register (events (NewClientRPC journal) welcoming) = [EvRegister] /\
    accept_loops (events (NewClientRPC journal) welcoming) = [rpcLn].
Proof.
  pose proof (NewClientRPC_serves_only_when_bound journal unreachable)
    as (_ & _ & Hdial & Hnil & _).
  pose proof (NewClientRPC_serves_only_when_bound journal welcoming)
    as (_ & _ & _ & _ & Hsome).
  destruct (Hnil eq_refl) as [Hloops Hreg].
  split; [exact Hloops | split; [exact Hreg | split]].
  - apply Hdial. exists (OtherError "connection refused"). reflexivity.
  - apply (Hsome hosted). reflexivity.
Defined.

Lemma constructed_client_never_panics_witness :
  result (NewClientRPC journal) welcoming = Val (Some hosted) /\
  exists c' bs,
    result (session hosted [room1; InvRemoveGame "room1"]) lost_twice
    = Val (c', bs) /\
    result (CloseConnection c')
           (after (session hosted [room1; InvRemoveGame "room1"]) lost_twice)
    = Val c'.
Proof.
  assert (Hnew : result (NewClientRPC journal) welcoming = Val (Some hosted))
    by reflexivity.
  split; [exact Hnew |].
  exact (constructed_client_never_panics
           journal welcoming hosted Hnew
           [room1; InvRemoveGame "room1"] lost_twice).
Defined.

Lemma CloseConnection_keeps_the_closed_listener_witness :
  listener hosted = Some 0 /\
  events (bind (CloseConnection hosted) CloseConnection) (responsive true)
  = [EvClose 0; EvClose 0] /\
  events (CloseConnection (mkClientRPC journal None None)) (responsive true) = [].
Proof.
  assert (Hl : listener hosted = Some 0) by reflexivity.
  split; [exact Hl | split].
  - exact (proj2 (proj2 (CloseConnection_keeps_the_closed_listener
                           hosted (responsive true))) 0 Hl).
  - apply (proj1 (proj2 (CloseConnection_keeps_the_closed_listener
                           (mkClientRPC journal None None) (responsive true)))).
    reflexivity.
Defined.
